(** * forkprocess: the spawn-and-release protocol of [fork.go]

    The Go package holds one struct, [ForkProcess], a constructor and two
    methods, [Exec] and [Release].  Both methods talk to the operating
    system through three calls of the Go runtime: [os.Environ],
    [os.StartProcess] and the [Release] method of [os.Process].  The
    methods are embedded as programs over exactly these three calls; an
    operating system is a handler answering them, and running a program
    against a handler yields the returned value, the final state of the
    system and the list of calls that were made together with their
    answers. *)

From Stdlib Require Import List String NArith Bool Lia.
Import ListNotations.
Open Scope string_scope.

Set Implicit Arguments.

(** ** Go values *)

(** [*os.File]: a possibly nil reference to an open file, identified by its
    descriptor. *)
Definition File := option nat.

(** [*os.Process] once it is not nil: the identity of the process record
    the runtime handed out.  The record itself lives in the system state,
    so two copies of the reference denote the same record. *)
Definition Process := nat.

(** A non-nil Go [error]; the [error] interface value is [option error],
    [None] being [nil]. *)
Definition error := string.

Module syscall.

(** [syscall.Credential].  [Groups] is a slice; the nil slice is the
    empty list. *)
Record Credential : Type := {
  Uid : N;
  Gid : N;
  Groups : list N;
  NoSetGroups : bool
}.

(** [syscall.SysProcAttr], restricted to the two fields [fork.go] sets;
    every other field keeps its zero value.  The Go field [Credential]
    is called [Cred] here, the name being taken by the type. *)
Record SysProcAttr : Type := {
  Cred : option Credential;
  Setsid : bool
}.

(** The identity a process runs under. *)
Record Identity : Type := {
  id_uid : N;
  id_gid : N;
  id_groups : list N
}.

(** What the Go runtime does with the credential of a [SysProcAttr] in the
    child, between fork and exec, as package [syscall] documents the
    fields: the child starts with the identity of the calling process;
    with a credential it sets the supplementary groups to [Groups] unless
    [NoSetGroups] is set (the field reads: if true, do not set
    supplementary groups), then sets the group id to [Gid] and the user id
    to [Uid]; with no credential it changes nothing. *)
Definition child_identity (caller : Identity) (cred : option Credential)
    : Identity :=
  match cred with
  | None => caller
  | Some c =>
      {| id_uid := Uid c;
         id_gid := Gid c;
         id_groups := if NoSetGroups c then id_groups caller else Groups c |}
  end.

End syscall.

Module os.

(** [os.ProcAttr]. *)
Record ProcAttr : Type := {
  Dir : string;
  Env : list string;
  Files : list File;
  Sys : option syscall.SysProcAttr
}.

(** The two results of [os.StartProcess].  The runtime returns either a
    fresh process record and a nil error, or a nil record and the error. *)
Inductive StartResult : Type :=
| Started (p : Process)
| Failed (err : error).

(** The [*os.Process] component of the result pair. *)
Definition result_process (r : StartResult) : option Process :=
  match r with
  | Started p => Some p
  | Failed _ => None
  end.

End os.

(** ** Programs over the runtime calls *)

(** The calls [fork.go] makes, indexed by the type of their answer. *)
Inductive Call : Type -> Type :=
| Environ : Call (list string)
| StartProcess (name : string) (argv : list string) (attr : os.ProcAttr)
  : Call os.StartResult
| ProcessRelease (p : Process) : Call (option error).

Inductive Prog (A : Type) : Type :=
| Ret (a : A)
| Vis (X : Type) (c : Call X) (k : X -> Prog A).

Arguments Ret {A} a.
Arguments Vis {A X} c k.

Fixpoint bind {A B : Type} (m : Prog A) (f : A -> Prog B) : Prog B :=
  match m with
  | Ret a => f a
  | Vis c k => Vis c (fun x => bind (k x) f)
  end.

Definition call {X : Type} (c : Call X) : Prog X := Vis c Ret.

Declare Scope prog_scope.
Delimit Scope prog_scope with prog.
Notation "x <- m ;; k" := (bind m (fun x => k))
  (at level 61, m at next level, right associativity) : prog_scope.
Notation "' pat <- m ;; k" := (bind m (fun x => match x with pat => k end))
  (at level 61, pat pattern, m at next level, right associativity) : prog_scope.
Open Scope prog_scope.

(** ** Operating systems and traces *)

(** One call together with the answer it received. *)
Inductive Event : Type :=
| EvEnviron (env : list string)
| EvStart (name : string) (argv : list string) (attr : os.ProcAttr)
          (r : os.StartResult)
| EvRelease (p : Process) (r : option error).

Definition event_of {X : Type} (c : Call X) : X -> Event :=
  match c in Call T return T -> Event with
  | Environ => EvEnviron
  | StartProcess name argv attr => EvStart name argv attr
  | ProcessRelease p => EvRelease p
  end.

(** An operating system over states [W] answers every call and moves to a
    new state. *)
Definition OS (W : Type) : Type := forall X : Type, Call X -> W -> X * W.

(** The outcome of running a program. *)
Record Outcome (W A : Type) : Type := {
  value : A;
  world : W;
  trace : list Event
}.

Fixpoint run {W A : Type} (sys : OS W) (m : Prog A) (w : W) : Outcome W A :=
  match m with
  | Ret a => {| value := a; world := w; trace := [] |}
  | Vis c k =>
      let '(x, w1) := sys _ c w in
      let o := run sys (k x) w1 in
      {| value := value o; world := world o;
         trace := event_of c x :: trace o |}
  end.

(** ** The launcher *)

(** [type ForkProcess struct]. *)
Record ForkProcess : Type := {
  stdin : File;
  stdout : File;
  stderr : File;
  uid : N;
  gid : N;
  execPath : string;
  process : option Process
}.

(** The assignment [f.process = p]. *)
Definition set_process (p : option Process) (f : ForkProcess) : ForkProcess :=
  {| stdin := stdin f; stdout := stdout f; stderr := stderr f;
     uid := uid f; gid := gid f; execPath := execPath f;
     process := p |}.

(** [func NewForkProcess]: the [process] field is left at its zero value. *)
Definition NewForkProcess (stdin stdout stderr : File) (uid gid : N)
    (execPath : string) : ForkProcess :=
  {| stdin := stdin; stdout := stdout; stderr := stderr;
     uid := uid; gid := gid; execPath := execPath;
     process := None |}.

(** [func (f *ForkProcess) Exec].  The receiver is a pointer: the launcher
    the caller sees afterwards is returned next to the error. *)
Definition Exec (release : bool) (processName : string) (args : list string)
    (f : ForkProcess) : Prog (option error * ForkProcess) :=
  let cred :=
    {| syscall.Uid := uid f;
       syscall.Gid := gid f;
       syscall.Groups := [];
       syscall.NoSetGroups := true |} in
  let sysproc :=
    {| syscall.Cred := Some cred;
       syscall.Setsid := true |} in
  env <- call Environ ;;
  let attr :=
    {| os.Dir := execPath f;
       os.Env := env;
       os.Files := [stdin f; stdout f; stderr f];
       os.Sys := Some sysproc |} in
  r <- call (StartProcess processName args attr) ;;
  let f := set_process (os.result_process r) f in
  match r with
  | os.Failed err => Ret (Some err, f)
  | os.Started p =>
      if release then
        err <- call (ProcessRelease p) ;;
        let f := set_process None f in
        match err with
        | Some e => Ret (Some e, f)
        | None => Ret (None, f)
        end
      else Ret (None, f)
  end.

(** [func (f ForkProcess) Release].  The receiver is a value: the method
    works on a copy of the launcher and has nothing but the error to give
    back. *)
Definition Release (f : ForkProcess) : Prog (option error) :=
  match process f with
  | Some p => call (ProcessRelease p)
  | None => Ret None
  end.

(** ** Sequences of method calls on one launcher *)

Inductive Op : Type :=
| OpExec (release : bool) (processName : string) (args : list string)
| OpRelease.

(** One method call on the caller's launcher variable.  After [Release] the
    caller still holds the launcher it passed by value. *)
Definition step (op : Op) (f : ForkProcess) : Prog (option error * ForkProcess) :=
  match op with
  | OpExec release processName args => Exec release processName args f
  | OpRelease => err <- Release f ;; Ret (err, f)
  end.

(** The calls of [ops] in order, collecting the returned errors. *)
Fixpoint steps (ops : list Op) (f : ForkProcess)
    : Prog (list (option error) * ForkProcess) :=
  match ops with
  | [] => Ret ([], f)
  | op :: ops' =>
      '(err, f1) <- step op f ;;
      '(errs, f2) <- steps ops' f1 ;;
      Ret (err :: errs, f2)
  end.

(** ** Reading a trace *)

(** The arguments of the [os.StartProcess] calls of a trace, in order. *)
Fixpoint start_calls (t : list Event)
    : list (string * list string * os.ProcAttr) :=
  match t with
  | [] => []
  | EvStart name argv attr _ :: t' => (name, argv, attr) :: start_calls t'
  | _ :: t' => start_calls t'
  end.

(** The process records whose release operation a trace invokes, in order. *)
Fixpoint release_calls (t : list Event) : list Process :=
  match t with
  | [] => []
  | EvRelease p _ :: t' => p :: release_calls t'
  | _ :: t' => release_calls t'
  end.

(** The credential a process-attribute record carries, if any. *)
Definition credential_of (attr : os.ProcAttr) : option syscall.Credential :=
  match os.Sys attr with
  | Some s => syscall.Cred s
  | None => None
  end.

(** The six configuration fields of a launcher. *)
Definition configuration (f : ForkProcess)
    : File * File * File * N * N * string :=
  (stdin f, stdout f, stderr f, uid f, gid f, execPath f).

(** The lifecycle as the specification words it: the live process is the
    one of the most recent successful spawn, and it is gone once its
    release operation has been invoked. *)
Definition spec_track (live : option Process) (e : Event) : option Process :=
  match e with
  | EvEnviron _ => live
  | EvStart _ _ _ r => os.result_process r
  | EvRelease _ _ => None
  end.

Definition spec_liveProcess (live : option Process) (t : list Event)
    : option Process :=
  fold_left spec_track t live.

(** The first error the operating system reported in a trace, nil when
    every call went well. *)
Fixpoint reported_error (t : list Event) : option error :=
  match t with
  | [] => None
  | EvStart _ _ _ (os.Failed err) :: _ => Some err
  | EvRelease _ (Some err) :: _ => Some err
  | _ :: t' => reported_error t'
  end.

(** The programs and argument vectors a sequence of calls asks to spawn,
    in order. *)
Fixpoint exec_requests (ops : list Op) : list (string * list string) :=
  match ops with
  | [] => []
  | OpExec _ processName args :: ops' =>
      (processName, args) :: exec_requests ops'
  | OpRelease :: ops' => exec_requests ops'
  end.

(** An [Exec] call with [release] unset. *)
Definition tracking_exec (op : Op) : bool :=
  match op with
  | OpExec false _ _ => true
  | _ => false
  end.

(** ** A small operating system to run the launcher on *)

Module Sim.

(** The state: the environment of the calling process, the paths that
    can be executed, the identity of the next process record, the records
    released so far (most recent first) and the error, if any, that the
    release operation reports. *)
Record World : Type := {
  environment : list string;
  executables : list string;
  next : Process;
  released : list Process;
  release_error : option error
}.

Definition start (name : string) (w : World) : os.StartResult * World :=
  if existsb (String.eqb name) (executables w)
  then (os.Started (next w),
        {| environment := environment w; executables := executables w;
           next := S (next w); released := released w;
           release_error := release_error w |})
  else (os.Failed "fork/exec: no such file or directory", w).

Definition release (p : Process) (w : World) : option error * World :=
  (release_error w,
   {| environment := environment w; executables := executables w;
      next := next w; released := p :: released w;
      release_error := release_error w |}).

Definition sys : OS World :=
  fun X c =>
    match c in Call T return World -> T * World with
    | Environ => fun w => (environment w, w)
    | StartProcess name _ _ => start name
    | ProcessRelease p => release p
    end.

(** A system with [/bin/sleep] installed and a working release. *)
Definition boot : World :=
  {| environment := ["PATH=/bin"; "HOME=/root"];
     executables := ["/bin/sleep"];
     next := 1;
     released := [];
     release_error := None |}.

(** The same system with a release operation that reports an error. *)
Definition faulty : World :=
  {| environment := ["PATH=/bin"; "HOME=/root"];
     executables := ["/bin/sleep"];
     next := 1;
     released := [];
     release_error := Some "release: invalid argument" |}.

(** A launcher as the package's example builds it. *)
Definition fork : ForkProcess :=
  NewForkProcess (Some 3%nat) (Some 4%nat) (Some 4%nat) 1000%N 1000%N "/".

(** The same launcher while it tracks process record 7. *)
Definition tracking : ForkProcess := set_process (Some 7%nat) fork.

(** The program of the package's example, and one that is not there. *)
Definition sleep : string := "/bin/sleep".
Definition missing : string := "/bin/missing".

(** The argument vector of the package's example. *)
Definition sleep60 : list string := ["/bin/sleep"; "60"].

(** A session on one launcher: spawn and keep, release, spawn and
    detach. *)
Definition session : list Op :=
  [OpExec false sleep sleep60; OpRelease; OpExec true sleep sleep60].

(** A calling process: root, member of the supplementary groups 4 and
    27. *)
Definition caller : syscall.Identity :=
  {| syscall.id_uid := 0%N;
     syscall.id_gid := 0%N;
     syscall.id_groups := [4%N; 27%N] |}.

(** The attributes [fork] spawns with on the systems above. *)
Definition attr : os.ProcAttr :=
  {| os.Dir := "/";
     os.Env := ["PATH=/bin"; "HOME=/root"];
     os.Files := [Some 3%nat; Some 4%nat; Some 4%nat];
     os.Sys := Some {| syscall.Cred :=
                         Some {| syscall.Uid := 1000%N;
                                 syscall.Gid := 1000%N;
                                 syscall.Groups := [];
                                 syscall.NoSetGroups := true |};
                       syscall.Setsid := true |} |}.

End Sim.

(** ** Running [Exec] *)

Section Runs.

Context {W : Type}.
Variable sys : OS W.

(** The process attributes [Exec] assembles for launcher [f] once
    [os.Environ] has answered [env]. *)
Definition spawn_attr (f : ForkProcess) (env : list string) : os.ProcAttr :=
  {| os.Dir := execPath f;
     os.Env := env;
     os.Files := [stdin f; stdout f; stderr f];
     os.Sys := Some {| syscall.Cred :=
                         Some {| syscall.Uid := uid f;
                                 syscall.Gid := gid f;
                                 syscall.Groups := [];
                                 syscall.NoSetGroups := true |};
                       syscall.Setsid := true |} |}.

(** The three ways a run of [Exec] can go. *)
Inductive ExecRun (release : bool) (name : string) (args : list string)
    (f : ForkProcess) (w : W) : Outcome W (option error * ForkProcess) -> Prop :=
| ExecFailed env w0 err w1 :
    sys Environ w = (env, w0) ->
    sys (StartProcess name args (spawn_attr f env)) w0 = (os.Failed err, w1) ->
    ExecRun release name args f w
      {| value := (Some err, set_process None f);
         world := w1;
         trace := [EvEnviron env;
                   EvStart name args (spawn_attr f env) (os.Failed err)] |}
| ExecTracked env w0 p w1 :
    release = false ->
    sys Environ w = (env, w0) ->
    sys (StartProcess name args (spawn_attr f env)) w0 = (os.Started p, w1) ->
    ExecRun release name args f w
      {| value := (None, set_process (Some p) f);
         world := w1;
         trace := [EvEnviron env;
                   EvStart name args (spawn_attr f env) (os.Started p)] |}
| ExecDetached env w0 p w1 rerr w2 :
    release = true ->
    sys Environ w = (env, w0) ->
    sys (StartProcess name args (spawn_attr f env)) w0 = (os.Started p, w1) ->
    sys (ProcessRelease p) w1 = (rerr, w2) ->
    ExecRun release name args f w
      {| value := (rerr, set_process None f);
         world := w2;
         trace := [EvEnviron env;
                   EvStart name args (spawn_attr f env) (os.Started p);
                   EvRelease p rerr] |}.

Lemma set_process_twice p q f :
  set_process p (set_process q f) = set_process p f.
Proof. reflexivity. Qed.

Lemma set_process_same f : set_process (process f) f = f.
Proof. destruct f; reflexivity. Qed.

Lemma Exec_run release name args f w :
  ExecRun release name args f w (run sys (Exec release name args f) w).
Proof.
  unfold Exec; cbn.
  destruct (sys Environ w) as [env w0] eqn:Henv.
  fold (spawn_attr f env).
  destruct (sys (StartProcess name args (spawn_attr f env)) w0)
    as [[p | err] w1] eqn:Hstart; cbn.
  - destruct release; cbn.
    + destruct (sys (ProcessRelease p) w1) as [rerr w2] eqn:Hrel.
      destruct rerr as [e | ]; cbn; rewrite set_process_twice;
        eapply ExecDetached; eauto.
    + eapply ExecTracked; eauto.
  - eapply ExecFailed; eauto.
Qed.

(** The two ways a run of [Release] can go. *)
Lemma Release_run f w :
  run sys (Release f) w =
  match process f with
  | Some p =>
      {| value := fst (sys (ProcessRelease p) w);
         world := snd (sys (ProcessRelease p) w);
         trace := [EvRelease p (fst (sys (ProcessRelease p) w))] |}
  | None => {| value := None; world := w; trace := [] |}
  end.
Proof.
  unfold Release.
  destruct (process f) as [p | ]; cbn; [ | reflexivity ].
  destruct (sys (ProcessRelease p) w); reflexivity.
Qed.

(** Running a sequenced program runs its parts one after the other. *)
Lemma run_bind {A B : Type} (m : Prog A) (k : A -> Prog B) w :
  run sys (bind m k) w =
  let o := run sys m w in
  let o' := run sys (k (value o)) (world o) in
  {| value := value o'; world := world o';
     trace := trace o ++ trace o' |}.
Proof.
  revert w; induction m as [a | X c k' IH]; intros w; cbn.
  - destruct (run sys (k a) w); reflexivity.
  - destruct (sys c w) as [x w1]. rewrite IH. reflexivity.
Qed.

(** A [Release] call on a launcher that tracks record [p], seen from the
    caller. *)
Lemma step_Release_tracked f p w :
  process f = Some p ->
  run sys (step OpRelease f) w =
  {| value := (fst (sys (ProcessRelease p) w), f);
     world := snd (sys (ProcessRelease p) w);
     trace := [EvRelease p (fst (sys (ProcessRelease p) w))] |}.
Proof.
  intros Hp. cbn -[Release].
  rewrite run_bind, Release_run, Hp. reflexivity.
Qed.

(** A sequence of calls runs its first call, then the rest on the
    launcher and in the state the first call left. *)
Lemma run_steps_cons op ops f w :
  run sys (steps (op :: ops) f) w =
  let o := run sys (step op f) w in
  let o' := run sys (steps ops (snd (value o))) (world o) in
  {| value := (fst (value o) :: fst (value o'), snd (value o'));
     world := world o';
     trace := trace o ++ trace o' |}.
Proof.
  cbn [steps]. rewrite run_bind. cbn zeta.
  destruct (value (run sys (step op f) w)) as [err f1].
  rewrite run_bind. cbn zeta; cbn [fst snd].
  destruct (value (run sys (steps ops f1) _)) as [errs f2].
  cbn. rewrite app_nil_r. reflexivity.
Qed.

Lemma run_steps_nil f w :
  run sys (steps [] f) w = {| value := ([], f); world := w; trace := [] |}.
Proof. reflexivity. Qed.

End Runs.

(** Unfold a run of an explicit sequence of calls into the runs of its
    calls. *)
Ltac unroll_steps :=
  repeat (rewrite run_steps_cons; cbn zeta); rewrite ?run_steps_nil.

(** ** What [Exec] hands to the operating system *)

Section Spawn.

Context {W : Type}.
Variable sys : OS W.

(** C8, as the code has it.  Every [Exec] call invokes the
    process-creation primitive exactly once, and the credential it passes
    holds the launcher's [uid] and [gid], an empty list of supplementary
    groups and the flag that suppresses setting groups.  With that flag
    set the runtime sets no supplementary groups: the child runs under the
    launcher's [uid] and [gid] and keeps the supplementary groups of the
    calling process, whatever they are. *)
Theorem Exec_credential_keeps_groups (w : W) (release : bool)
    (processName : string) (args : list string) (f : ForkProcess) :
  exists attr,
    start_calls (trace (run sys (Exec release processName args f) w))
      = [(processName, args, attr)] /\
    credential_of attr =
      Some {| syscall.Uid := uid f;
              syscall.Gid := gid f;
              syscall.Groups := [];
              syscall.NoSetGroups := true |} /\
    forall caller : syscall.Identity,
      syscall.child_identity caller (credential_of attr) =
        {| syscall.id_uid := uid f;
           syscall.id_gid := gid f;
           syscall.id_groups := syscall.id_groups caller |}.
Proof.
  destruct (Exec_run sys release processName args f w);
    eexists; repeat split.
Qed.

(** C9.  Every [Exec] call invokes the process-creation primitive exactly
    once, with attributes whose directory is the launcher's [execPath],
    whose environment is the answer [os.Environ] gave in the state the
    call started from, whose file table is the launcher's [stdin],
    [stdout] and [stderr] in this order and nothing else, and which ask
    for a new session. *)
Theorem Exec_process_attributes (w : W) (release : bool)
    (processName : string) (args : list string) (f : ForkProcess) :
  exists attr sysproc,
    start_calls (trace (run sys (Exec release processName args f) w))
      = [(processName, args, attr)] /\
    os.Dir attr = execPath f /\
    os.Env attr = fst (sys Environ w) /\
    os.Files attr = [stdin f; stdout f; stderr f] /\
    os.Sys attr = Some sysproc /\
    syscall.Setsid sysproc = true.
Proof.
  destruct (Exec_run sys release processName args f w) as
    [env w0 err w1 Henv _ | env w0 p w1 _ Henv _
     | env w0 p w1 rerr w2 _ Henv _ _];
    rewrite Henv; do 2 eexists; repeat split.
Qed.

(** C10.  A call of [Exec] or of [Release] leaves the launcher's [stdin],
    [stdout], [stderr], [uid], [gid] and [execPath] as they were: the
    launcher afterwards is the one before with at most its [process]
    field changed. *)
Theorem step_preserves_configuration (w : W) (op : Op) (f : ForkProcess) :
  let f' := snd (value (run sys (step op f) w)) in
  stdin f' = stdin f /\ stdout f' = stdout f /\ stderr f' = stderr f /\
  uid f' = uid f /\ gid f' = gid f /\ execPath f' = execPath f /\
  f' = set_process (process f') f.
Proof.
  destruct op as [release processName args | ]; cbn -[Exec Release].
  - destruct (Exec_run sys release processName args f w); cbn;
      repeat split.
  - rewrite run_bind, Release_run.
    replace (snd (value _)) with f by (destruct (process f); reflexivity).
    repeat split. symmetry; apply set_process_same.
Qed.

End Spawn.

(** ** The lifecycle of the [process] field *)

Section Lifecycle.

Context {W : Type}.
Variable sys : OS W.

(** C5.  On a launcher whose [process] field is nil, [Release] makes no
    call to the operating system, leaves its state alone and returns
    nil. *)
Theorem Release_absent_noop (w : W) (f : ForkProcess) :
  process f = None ->
  run sys (Release f) w = {| value := None; world := w; trace := [] |}.
Proof.
  intros Hp. rewrite Release_run, Hp. reflexivity.
Qed.

(** C6.  When [Exec] is called with [release] set and the spawn succeeds
    with record [p], the call makes exactly one further request, the
    release of [p], returns what that release returned, error or nil, and
    leaves the [process] field nil in either case. *)
Theorem Exec_detach_clears (w : W) (processName : string)
    (args : list string) (f : ForkProcess)
    (name : string) (argv : list string) (attr : os.ProcAttr) (p : Process) :
  let o := run sys (Exec true processName args f) w in
  In (EvStart name argv attr (os.Started p)) (trace o) ->
  exists env rerr,
    trace o = [EvEnviron env;
               EvStart processName args attr (os.Started p);
               EvRelease p rerr] /\
    fst (value o) = rerr /\
    process (snd (value o)) = None.
Proof.
  cbn zeta.
  destruct (Exec_run sys true processName args f w) as
    [env w0 err w1 _ _ | env w0 q w1 Hrel _ _
     | env w0 q w1 rerr w2 _ _ _ _]; cbn.
  - intros [H | [H | []]]; discriminate H.
  - discriminate Hrel.
  - intros [H | [H | [H | []]]]; try discriminate H.
    injection H as _ _ <- <-. exists env, rerr. repeat split.
Qed.

(** C2, as the code has it.  When the spawn of an [Exec] call fails with
    error [err], the call returns [err] itself, invokes no release, and
    stores the nil record the primitive returned: the [process] field is
    nil afterwards, so a launcher that tracked nothing is unchanged. *)
Theorem Exec_failure_stores_nil (w : W) (release : bool)
    (processName : string) (args : list string) (f : ForkProcess)
    (name : string) (argv : list string) (attr : os.ProcAttr) (err : error) :
  let o := run sys (Exec release processName args f) w in
  In (EvStart name argv attr (os.Failed err)) (trace o) ->
  fst (value o) = Some err /\
  release_calls (trace o) = [] /\
  process (snd (value o)) = None /\
  (process f = None -> snd (value o) = f).
Proof.
  cbn zeta.
  destruct (Exec_run sys release processName args f w) as
    [env w0 e w1 _ _ | env w0 q w1 _ _ _
     | env w0 q w1 rerr w2 _ _ _ _]; cbn.
  - intros [H | [H | []]]; try discriminate H.
    injection H as _ _ _ <-. repeat split.
    intros Hp. rewrite <- Hp. apply set_process_same.
  - intros [H | [H | []]]; discriminate H.
  - intros [H | [H | [H | []]]]; discriminate H.
Qed.

(** C3.  On a launcher that tracks record [p], a call of [Release]
    invokes the release of [p] and returns its result, and the launcher
    the caller holds afterwards still has [p] in its [process] field. *)
Theorem Release_keeps_process (w : W) (f : ForkProcess) (p : Process) :
  process f = Some p ->
  let o := run sys (step OpRelease f) w in
  release_calls (trace o) = [p] /\
  snd (value o) = f /\
  process (snd (value o)) = Some p.
Proof.
  intros Hp; cbn zeta.
  rewrite (step_Release_tracked sys f w Hp). cbn. auto.
Qed.

(** C7.  When [Exec] is called with [release] unset and the spawn
    succeeds with record [p], the call returns nil with [p] in the
    [process] field; a [Release] call that follows invokes the release
    of [p] and leaves [p] in the [process] field. *)
Theorem Exec_tracks_and_Release_keeps (w : W) (processName : string)
    (args : list string) (f : ForkProcess)
    (name : string) (argv : list string) (attr : os.ProcAttr) (p : Process) :
  let o := run sys (Exec false processName args f) w in
  let o' := run sys (step OpRelease (snd (value o))) (world o) in
  In (EvStart name argv attr (os.Started p)) (trace o) ->
  (fst (value o) = None /\ process (snd (value o)) = Some p) /\
  (release_calls (trace o') = [p] /\ process (snd (value o')) = Some p).
Proof.
  cbn zeta.
  destruct (Exec_run sys false processName args f w) as
    [env w0 err w1 _ _ | env w0 q w1 _ _ _
     | env w0 q w1 rerr w2 Hrel _ _ _]; cbn -[step].
  - intros [H | [H | []]]; discriminate H.
  - intros [H | [H | []]]; try discriminate H.
    injection H as _ _ _ <-. split; [ split; reflexivity | ].
    rewrite (step_Release_tracked sys (set_process (Some q) f) w1 eq_refl).
    split; reflexivity.
  - discriminate Hrel.
Qed.

(** C4.  After an [Exec] call with [release] unset whose spawn succeeds
    with record [p], two [Release] calls in a row each invoke the release
    of [p] and each return what that release returned; the second call
    repeats the first instead of doing nothing, and [p] stays in the
    [process] field throughout. *)
Theorem Release_twice_releases_twice (w : W) (processName : string)
    (args : list string) (f : ForkProcess)
    (name : string) (argv : list string) (attr : os.ProcAttr) (p : Process) :
  let o := run sys (steps [OpExec false processName args;
                           OpRelease; OpRelease] f) w in
  In (EvStart name argv attr (os.Started p)) (trace o) ->
  exists env r1 r2,
    trace o = [EvEnviron env;
               EvStart processName args attr (os.Started p);
               EvRelease p r1;
               EvRelease p r2] /\
    fst (value o) = [None; r1; r2] /\
    process (snd (value o)) = Some p.
Proof.
  cbn zeta. rewrite run_steps_cons. cbn zeta; cbn [step].
  destruct (Exec_run sys false processName args f w) as
    [env w0 err w1 _ _ | env w0 q w1 _ _ _
     | env w0 q w1 rerr w2 Hrel _ _ _]; cbn [value world trace fst snd].
  - unroll_steps. cbn -[Release].
    rewrite !run_bind, !Release_run. cbn.
    intros [H | [H | []]]; discriminate H.
  - unroll_steps.
    rewrite (step_Release_tracked sys (set_process (Some q) f) w1 eq_refl).
    cbn [value world trace fst snd].
    rewrite (step_Release_tracked sys (set_process (Some q) f) _ eq_refl).
    cbn.
    intros [H | [H | [H | [H | []]]]]; try discriminate H.
    injection H as _ _ <- <-. do 3 eexists. repeat split.
  - discriminate Hrel.
Qed.

(** C1.  After an [Exec] call with [release] unset whose spawn succeeds
    with record [p] and a [Release] call, the lifecycle of the
    specification tracks no process, the release of [p] having been
    invoked, while the [process] field still holds [p]. *)
Theorem Release_breaks_lifecycle (w : W) (processName : string)
    (args : list string) (f : ForkProcess)
    (name : string) (argv : list string) (attr : os.ProcAttr) (p : Process) :
  let o := run sys (steps [OpExec false processName args; OpRelease] f) w in
  In (EvStart name argv attr (os.Started p)) (trace o) ->
  release_calls (trace o) = [p] /\
  spec_liveProcess (process f) (trace o) = None /\
  process (snd (value o)) = Some p.
Proof.
  cbn zeta. rewrite run_steps_cons. cbn zeta; cbn [step].
  destruct (Exec_run sys false processName args f w) as
    [env w0 err w1 _ _ | env w0 q w1 _ _ _
     | env w0 q w1 rerr w2 Hrel _ _ _]; cbn [value world trace fst snd].
  - unroll_steps. cbn -[Release].
    rewrite !run_bind, !Release_run. cbn.
    intros [H | [H | []]]; discriminate H.
  - unroll_steps.
    rewrite (step_Release_tracked sys (set_process (Some q) f) w1 eq_refl).
    cbn.
    intros [H | [H | [H | []]]]; try discriminate H.
    injection H as _ _ _ <-. repeat split.
  - discriminate Hrel.
Qed.

(** A sequence of [Exec] calls alone follows the lifecycle of the
    specification: the [process] field afterwards is the record the
    lifecycle tracks. *)
Lemma Exec_sequence_follows_lifecycle (ops : list Op) :
  Forall (fun op => op <> OpRelease) ops ->
  forall (f : ForkProcess) (w : W),
    let o := run sys (steps ops f) w in
    process (snd (value o)) = spec_liveProcess (process f) (trace o).
Proof.
  induction 1 as [ | op ops Hop _ IH]; intros f w; cbn zeta.
  - reflexivity.
  - rewrite run_steps_cons. cbn [value world trace fst snd].
    unfold spec_liveProcess. rewrite fold_left_app.
    specialize (IH (snd (value (run sys (step op f) w)))
                   (world (run sys (step op f) w))).
    cbn zeta in IH. rewrite IH. unfold spec_liveProcess. f_equal.
    destruct op as [release processName args | ]; [ | congruence ].
    cbn [step].
    destruct (Exec_run sys release processName args f w); reflexivity.
Qed.

End Lifecycle.

(** ** The launcher of the package's example on the small system *)

(** The example of the package documentation: a detaching [Exec] of
    [/bin/sleep 60]. *)
Example Exec_package_example :
  run Sim.sys (Exec true Sim.sleep Sim.sleep60 Sim.fork) Sim.boot =
  {| value := (None, Sim.fork);
     world := {| Sim.environment := ["PATH=/bin"; "HOME=/root"];
                 Sim.executables := ["/bin/sleep"];
                 Sim.next := 2;
                 Sim.released := [1];
                 Sim.release_error := None |};
     trace := [EvEnviron ["PATH=/bin"; "HOME=/root"];
               EvStart Sim.sleep Sim.sleep60 Sim.attr (os.Started 1);
               EvRelease 1 None] |}.
Proof. reflexivity. Qed.

(** The same call where the release reports an error: the error is
    returned and the launcher tracks nothing. *)
Example Exec_release_error :
  value (run Sim.sys (Exec true Sim.sleep Sim.sleep60 Sim.fork) Sim.faulty) =
  (Some "release: invalid argument", Sim.fork).
Proof. reflexivity. Qed.

(** A tracking [Exec] followed by two [Release] calls: the record is
    released twice and stays in the launcher. *)
Example Exec_Release_Release :
  let o := run Sim.sys
             (steps [OpExec false Sim.sleep Sim.sleep60; OpRelease; OpRelease]
                Sim.fork) Sim.boot in
  value o = ([None; None; None], set_process (Some 1) Sim.fork) /\
  Sim.released (world o) = [1; 1].
Proof. split; reflexivity. Qed.

(** [Release] on a launcher fresh from [NewForkProcess]. *)
Lemma Release_absent_noop_witness :
  process Sim.fork = None /\
  run Sim.sys (Release Sim.fork) Sim.boot =
    {| value := None; world := Sim.boot; trace := [] |}.
Proof.
  split; [ reflexivity | ].
  apply (Release_absent_noop Sim.sys Sim.boot Sim.fork). reflexivity.
Defined.

(** A detaching [Exec] on the system whose release reports an error: the
    error comes back and the field is nil all the same. *)
Lemma Exec_detach_clears_witness :
  In (EvStart Sim.sleep Sim.sleep60 Sim.attr (os.Started 1))
     (trace (run Sim.sys (Exec true Sim.sleep Sim.sleep60 Sim.fork) Sim.faulty)) /\
  exists env rerr,
    trace (run Sim.sys (Exec true Sim.sleep Sim.sleep60 Sim.fork) Sim.faulty) =
      [EvEnviron env;
       EvStart Sim.sleep Sim.sleep60 Sim.attr (os.Started 1);
       EvRelease 1 rerr] /\
    fst (value (run Sim.sys (Exec true Sim.sleep Sim.sleep60 Sim.fork) Sim.faulty))
      = rerr /\
    process (snd (value (run Sim.sys (Exec true Sim.sleep Sim.sleep60 Sim.fork)
                           Sim.faulty))) = None.
Proof.
  split; [ vm_compute; right; left; reflexivity | ].
  apply (Exec_detach_clears Sim.sys Sim.faulty Sim.sleep Sim.sleep60 Sim.fork
           Sim.sleep Sim.sleep60 Sim.attr 1).
  vm_compute; right; left; reflexivity.
Defined.

(** C2, as the claim words it, fails: a launcher that tracks record 7
    tracks nothing after an [Exec] call whose spawn fails. *)
Lemma Exec_failure_drops_tracked_process :
  trace (run Sim.sys (Exec false Sim.missing [Sim.missing] Sim.tracking) Sim.boot) =
    [EvEnviron ["PATH=/bin"; "HOME=/root"];
     EvStart Sim.missing [Sim.missing] Sim.attr
       (os.Failed "fork/exec: no such file or directory")] /\
  process Sim.tracking = Some 7 /\
  process (snd (value (run Sim.sys (Exec false Sim.missing [Sim.missing] Sim.tracking)
                         Sim.boot))) <> process Sim.tracking.
Proof.
  repeat split. vm_compute. discriminate.
Qed.

(** A failing [Exec] on the fresh launcher. *)
Lemma Exec_failure_stores_nil_witness :
  In (EvStart Sim.missing [Sim.missing] Sim.attr
        (os.Failed "fork/exec: no such file or directory"))
     (trace (run Sim.sys (Exec true Sim.missing [Sim.missing] Sim.fork) Sim.boot)) /\
  fst (value (run Sim.sys (Exec true Sim.missing [Sim.missing] Sim.fork) Sim.boot))
    = Some "fork/exec: no such file or directory" /\
  release_calls
    (trace (run Sim.sys (Exec true Sim.missing [Sim.missing] Sim.fork) Sim.boot)) = [] /\
  process (snd (value (run Sim.sys (Exec true Sim.missing [Sim.missing] Sim.fork)
                         Sim.boot))) = None /\
  (process Sim.fork = None ->
   snd (value (run Sim.sys (Exec true Sim.missing [Sim.missing] Sim.fork) Sim.boot))
     = Sim.fork).
Proof.
  split; [ vm_compute; right; left; reflexivity | ].
  apply (Exec_failure_stores_nil Sim.sys Sim.boot true Sim.missing [Sim.missing]
           Sim.fork Sim.missing [Sim.missing] Sim.attr
           "fork/exec: no such file or directory").
  vm_compute; right; left; reflexivity.
Defined.

(** [Release] on the launcher that tracks record 7. *)
Lemma Release_keeps_process_witness :
  process Sim.tracking = Some 7 /\
  release_calls (trace (run Sim.sys (step OpRelease Sim.tracking) Sim.boot))
    = [7] /\
  snd (value (run Sim.sys (step OpRelease Sim.tracking) Sim.boot))
    = Sim.tracking /\
  process (snd (value (run Sim.sys (step OpRelease Sim.tracking) Sim.boot)))
    = Some 7.
Proof.
  split; [ reflexivity | ].
  apply (Release_keeps_process Sim.sys Sim.boot Sim.tracking). reflexivity.
Defined.

(** A tracking [Exec] followed by [Release]. *)
Lemma Exec_tracks_and_Release_keeps_witness :
  In (EvStart Sim.sleep Sim.sleep60 Sim.attr (os.Started 1))
     (trace (run Sim.sys (Exec false Sim.sleep Sim.sleep60 Sim.fork) Sim.boot)) /\
  (fst (value (run Sim.sys (Exec false Sim.sleep Sim.sleep60 Sim.fork) Sim.boot))
     = None /\
   process (snd (value (run Sim.sys (Exec false Sim.sleep Sim.sleep60 Sim.fork)
                          Sim.boot))) = Some 1) /\
  (release_calls
     (trace (run Sim.sys
               (step OpRelease
                  (snd (value (run Sim.sys
                                 (Exec false Sim.sleep Sim.sleep60 Sim.fork)
                                 Sim.boot))))
               (world (run Sim.sys (Exec false Sim.sleep Sim.sleep60 Sim.fork)
                         Sim.boot)))) = [1] /\
   process
     (snd (value (run Sim.sys
                    (step OpRelease
                       (snd (value (run Sim.sys
                                      (Exec false Sim.sleep Sim.sleep60 Sim.fork)
                                      Sim.boot))))
                    (world (run Sim.sys
                              (Exec false Sim.sleep Sim.sleep60 Sim.fork)
                              Sim.boot))))) = Some 1).
Proof.
  split; [ vm_compute; right; left; reflexivity | ].
  apply (Exec_tracks_and_Release_keeps Sim.sys Sim.boot Sim.sleep Sim.sleep60
           Sim.fork Sim.sleep Sim.sleep60 Sim.attr 1).
  vm_compute; right; left; reflexivity.
Defined.

(** A tracking [Exec] followed by two [Release] calls. *)
Lemma Release_twice_releases_twice_witness :
  In (EvStart Sim.sleep Sim.sleep60 Sim.attr (os.Started 1))
     (trace (run Sim.sys
               (steps [OpExec false Sim.sleep Sim.sleep60; OpRelease; OpRelease]
                  Sim.fork) Sim.boot)) /\
  exists env r1 r2,
    trace (run Sim.sys
             (steps [OpExec false Sim.sleep Sim.sleep60; OpRelease; OpRelease]
                Sim.fork) Sim.boot) =
      [EvEnviron env;
       EvStart Sim.sleep Sim.sleep60 Sim.attr (os.Started 1);
       EvRelease 1 r1;
       EvRelease 1 r2] /\
    fst (value (run Sim.sys
                  (steps [OpExec false Sim.sleep Sim.sleep60; OpRelease; OpRelease]
                     Sim.fork) Sim.boot)) = [None; r1; r2] /\
    process (snd (value (run Sim.sys
                           (steps [OpExec false Sim.sleep Sim.sleep60;
                                   OpRelease; OpRelease]
                              Sim.fork) Sim.boot))) = Some 1.
Proof.
  split; [ vm_compute; right; left; reflexivity | ].
  apply (Release_twice_releases_twice Sim.sys Sim.boot Sim.sleep Sim.sleep60
           Sim.fork Sim.sleep Sim.sleep60 Sim.attr 1).
  vm_compute; right; left; reflexivity.
Defined.

(** A tracking [Exec] followed by [Release], against the lifecycle. *)
Lemma Release_breaks_lifecycle_witness :
  In (EvStart Sim.sleep Sim.sleep60 Sim.attr (os.Started 1))
     (trace (run Sim.sys
               (steps [OpExec false Sim.sleep Sim.sleep60; OpRelease]
                  Sim.fork) Sim.boot)) /\
  release_calls
    (trace (run Sim.sys
              (steps [OpExec false Sim.sleep Sim.sleep60; OpRelease]
                 Sim.fork) Sim.boot)) = [1] /\
  spec_liveProcess (process Sim.fork)
    (trace (run Sim.sys
              (steps [OpExec false Sim.sleep Sim.sleep60; OpRelease]
                 Sim.fork) Sim.boot)) = None /\
  process (snd (value (run Sim.sys
                         (steps [OpExec false Sim.sleep Sim.sleep60; OpRelease]
                            Sim.fork) Sim.boot))) = Some 1.
Proof.
  split; [ vm_compute; right; left; reflexivity | ].
  apply (Release_breaks_lifecycle Sim.sys Sim.boot Sim.sleep Sim.sleep60
           Sim.fork Sim.sleep Sim.sleep60 Sim.attr 1).
  vm_compute; right; left; reflexivity.
Defined.


(** ** Further properties of [NewForkProcess], [Exec] and [Release] *)

Section Calls.

Context {W : Type}.
Variable sys : OS W.

Lemma start_calls_app t1 t2 :
  start_calls (t1 ++ t2) = (start_calls t1 ++ start_calls t2)%list.
Proof.
  induction t1 as [ | [env | name argv attr r | p r] t1 IH]; cbn;
    rewrite ?IH; reflexivity.
Qed.

Lemma release_calls_app t1 t2 :
  release_calls (t1 ++ t2) = (release_calls t1 ++ release_calls t2)%list.
Proof.
  induction t1 as [ | [env | name argv attr r | p r] t1 IH]; cbn;
    rewrite ?IH; reflexivity.
Qed.

(** A [Release] call, seen from the caller, whatever the launcher tracks. *)
Lemma step_Release_run f w :
  run sys (step OpRelease f) w =
  match process f with
  | Some p =>
      {| value := (fst (sys (ProcessRelease p) w), f);
         world := snd (sys (ProcessRelease p) w);
         trace := [EvRelease p (fst (sys (ProcessRelease p) w))] |}
  | None => {| value := (None, f); world := w; trace := [] |}
  end.
Proof.
  cbn -[Release]. rewrite run_bind, Release_run.
  destruct (process f); reflexivity.
Qed.

Lemma step_same_configuration op f w :
  configuration (snd (value (run sys (step op f) w))) = configuration f.
Proof.
  destruct op as [release processName args | ].
  - cbn [step].
    destruct (Exec_run sys release processName args f w); reflexivity.
  - rewrite step_Release_run. destruct (process f); reflexivity.
Qed.

Lemma spawn_attr_configuration f g env :
  configuration f = configuration g -> spawn_attr f env = spawn_attr g env.
Proof.
  unfold configuration, spawn_attr. intros H.
  injection H as -> -> -> -> -> ->. reflexivity.
Qed.

(** The spawns one call asks for. *)
Lemma start_calls_step op f w :
  start_calls (trace (run sys (step op f) w)) =
  match op with
  | OpExec _ processName args =>
      [(processName, args, spawn_attr f (fst (sys Environ w)))]
  | OpRelease => []
  end.
Proof.
  destruct op as [release processName args | ].
  - cbn [step].
    destruct (Exec_run sys release processName args f w) as
      [env w0 err w1 Henv _ | env w0 p w1 _ Henv _
       | env w0 p w1 rerr w2 _ Henv _ _];
      rewrite Henv; reflexivity.
  - rewrite step_Release_run. destruct (process f); reflexivity.
Qed.

(** A sequence of calls split in two runs its first part, then its second
    part on the launcher and in the state the first part left. *)
Lemma run_steps_app ops1 ops2 f w :
  run sys (steps (ops1 ++ ops2) f) w =
  let o1 := run sys (steps ops1 f) w in
  let o2 := run sys (steps ops2 (snd (value o1))) (world o1) in
  {| value := ((fst (value o1) ++ fst (value o2))%list, snd (value o2));
     world := world o2;
     trace := trace o1 ++ trace o2 |}.
Proof.
  revert f w; induction ops1 as [ | op ops1 IH]; intros f w; cbn zeta.
  - rewrite run_steps_nil. cbn.
    destruct (run sys (steps ops2 f) w) as [[errs f2] w2 t2]; reflexivity.
  - rewrite <- app_comm_cons, !run_steps_cons. cbn zeta.
    rewrite IH. cbn. rewrite app_assoc. reflexivity.
Qed.

(** X1.  [Exec] reads nothing but the configuration of its launcher: on
    two launchers that agree on [stdin], [stdout], [stderr], [uid], [gid]
    and [execPath], whatever each of them tracks, the same call makes the
    same requests, returns the same error and leaves the same launcher. *)
Theorem Exec_reads_configuration_only (w : W) (release : bool)
    (processName : string) (args : list string) (f g : ForkProcess) :
  configuration f = configuration g ->
  run sys (Exec release processName args f) w =
  run sys (Exec release processName args g) w.
Proof.
  destruct f, g; unfold configuration; cbn.
  intros H; injection H as -> -> -> -> -> ->. reflexivity.
Qed.

(** X2.  A record whose release an [Exec] call invokes is one this same
    call spawned, and the call had [release] set: [Exec] never releases
    what the launcher tracked before, and never releases at all when
    [release] is unset. *)
Theorem Exec_releases_only_its_spawn (w : W) (release : bool)
    (processName : string) (args : list string) (f : ForkProcess)
    (q : Process) :
  let o := run sys (Exec release processName args f) w in
  In q (release_calls (trace o)) ->
  release = true /\
  exists attr, In (EvStart processName args attr (os.Started q)) (trace o).
Proof.
  cbn zeta.
  destruct (Exec_run sys release processName args f w) as
    [env w0 err w1 _ _ | env w0 p w1 _ _ _
     | env w0 p w1 rerr w2 Hrel _ _ _]; cbn.
  - intros [].
  - intros [].
  - intros [<- | []]. split; [ exact Hrel | ].
    eexists. right; left; reflexivity.
Qed.

(** X3.  Either method returns the first error the operating system
    reported during the call, and nil when no request of the call
    failed. *)
Theorem step_returns_reported_error (w : W) (op : Op) (f : ForkProcess) :
  fst (value (run sys (step op f) w)) =
  reported_error (trace (run sys (step op f) w)).
Proof.
  destruct op as [release processName args | ].
  - cbn [step].
    destruct (Exec_run sys release processName args f w) as
      [env w0 err w1 _ _ | env w0 p w1 _ _ _
       | env w0 p w1 rerr w2 _ _ _ _]; cbn; try reflexivity.
    destruct rerr; reflexivity.
  - rewrite step_Release_run.
    destruct (process f) as [p | ]; cbn; [ | reflexivity ].
    destruct (fst (sys (ProcessRelease p) w)); reflexivity.
Qed.

(** X4.  Whatever calls are made on a launcher, its [stdin], [stdout],
    [stderr], [uid], [gid] and [execPath] afterwards are those it started
    with. *)
Theorem steps_preserve_configuration (w : W) (ops : list Op)
    (f : ForkProcess) :
  configuration (snd (value (run sys (steps ops f) w))) = configuration f.
Proof.
  revert f w; induction ops as [ | op ops IH]; intros f w.
  - reflexivity.
  - rewrite run_steps_cons. cbn. rewrite IH.
    apply step_same_configuration.
Qed.

(** X5.  Every spawn requested during a sequence of calls on a launcher,
    however many [Exec] and [Release] calls came before it, uses the
    directory, the three files and the credential of the launcher the
    sequence started from, and asks for a new session. *)
Theorem steps_spawn_with_configuration (w : W) (ops : list Op)
    (f : ForkProcess) (name : string) (argv : list string)
    (attr : os.ProcAttr) :
  In (name, argv, attr) (start_calls (trace (run sys (steps ops f) w))) ->
  os.Dir attr = execPath f /\
  os.Files attr = [stdin f; stdout f; stderr f] /\
  os.Sys attr =
    Some {| syscall.Cred :=
              Some {| syscall.Uid := uid f;
                      syscall.Gid := gid f;
                      syscall.Groups := [];
                      syscall.NoSetGroups := true |};
            syscall.Setsid := true |}.
Proof.
  revert f w; induction ops as [ | op ops IH]; intros f w.
  - intros [].
  - rewrite run_steps_cons. cbn [trace].
    rewrite start_calls_app, in_app_iff. intros [Hin | Hin].
    + rewrite start_calls_step in Hin.
      destruct op as [release processName args | ]; [ | destruct Hin ].
      destruct Hin as [Heq | []].
      injection Heq as _ _ <-. repeat split.
    + apply IH in Hin.
      pose proof (step_same_configuration op f w) as Hcfg.
      unfold configuration in Hcfg.
      injection Hcfg as Hi Ho He Hu Hg Hd.
      rewrite Hi, Ho, He, Hu, Hg, Hd in Hin. exact Hin.
Qed.

(** X6.  The programs a sequence of calls spawns are those its [Exec]
    calls name, with their argument vectors, one spawn per [Exec] call and
    in the order of the calls, whether or not the spawns succeed;
    [Release] calls spawn nothing. *)
Theorem steps_spawn_requests (w : W) (ops : list Op) (f : ForkProcess) :
  map fst (start_calls (trace (run sys (steps ops f) w))) = exec_requests ops.
Proof.
  revert f w; induction ops as [ | op ops IH]; intros f w.
  - reflexivity.
  - rewrite run_steps_cons. cbn [trace].
    rewrite start_calls_app, map_app, IH, start_calls_step.
    destruct op; reflexivity.
Qed.

(** Any number of [Release] calls in a row leave the caller's launcher
    as it is. *)
Lemma Releases_same_launcher n f w :
  snd (value (run sys (steps (repeat OpRelease n) f) w)) = f.
Proof.
  revert w; induction n as [ | n IH]; intros w; cbn [repeat].
  - reflexivity.
  - rewrite run_steps_cons. cbn zeta. rewrite step_Release_run.
    destruct (process f); cbn; apply IH.
Qed.

(** X7.  [Release] calls added at the end of a sequence of calls, however
    many, do not change the launcher the sequence leaves: its [process]
    field stays what the last [Exec] call made it. *)
Theorem trailing_Releases_keep_launcher (w : W) (ops : list Op) (n : nat)
    (f : ForkProcess) :
  snd (value (run sys (steps (ops ++ repeat OpRelease n) f) w)) =
  snd (value (run sys (steps ops f) w)).
Proof.
  rewrite run_steps_app. cbn. apply Releases_same_launcher.
Qed.

(** X8.  On a launcher that tracks record [p], [n] calls of [Release] in a
    row invoke the release of [p] [n] times and make no other request. *)
Theorem Releases_release_each_time (w : W) (n : nat) (f : ForkProcess)
    (p : Process) :
  process f = Some p ->
  release_calls (trace (run sys (steps (repeat OpRelease n) f) w)) =
    repeat p n /\
  List.length (trace (run sys (steps (repeat OpRelease n) f) w)) = n.
Proof.
  intros Hp. revert w; induction n as [ | n IH]; intros w; cbn [repeat].
  - split; reflexivity.
  - rewrite run_steps_cons. cbn zeta.
    rewrite (step_Release_tracked sys f w Hp). cbn [value world trace fst snd].
    destruct (IH (snd (sys (ProcessRelease p) w))) as [IHr IHl].
    cbn. rewrite IHr, IHl. split; reflexivity.
Qed.

(** X9.  A launcher fresh from [NewForkProcess] tracks nothing: any number
    of [Release] calls on it make no request to the operating system,
    leave its state as it is, return nil each time and leave the launcher
    as constructed. *)
Theorem NewForkProcess_Releases_idle (w : W) (n : nat)
    (stdin stdout stderr : File) (uid gid : N) (execPath : string) :
  run sys (steps (repeat OpRelease n)
             (NewForkProcess stdin stdout stderr uid gid execPath)) w =
  {| value := (repeat None n,
               NewForkProcess stdin stdout stderr uid gid execPath);
     world := w;
     trace := [] |}.
Proof.
  induction n as [ | n IH]; cbn [repeat].
  - reflexivity.
  - rewrite run_steps_cons. cbn zeta. rewrite step_Release_run.
    cbn [process NewForkProcess value world trace fst snd].
    rewrite IH. reflexivity.
Qed.

(** X10.  The first [Exec] call on a launcher built by [NewForkProcess]
    asks the operating system for exactly one spawn, of the program and
    argument vector of the call, with the constructor's [execPath] as
    directory, its [stdin], [stdout], [stderr] as descriptors 0, 1, 2, its
    [uid] and [gid] as credential, and the environment of the calling
    process. *)
Theorem NewForkProcess_Exec_spawn (w : W) (release : bool)
    (processName : string) (args : list string)
    (stdin stdout stderr : File) (uid gid : N) (execPath : string) :
  start_calls
    (trace (run sys (Exec release processName args
                       (NewForkProcess stdin stdout stderr uid gid execPath))
              w)) =
  [(processName, args,
    {| os.Dir := execPath;
       os.Env := fst (sys Environ w);
       os.Files := [stdin; stdout; stderr];
       os.Sys := Some {| syscall.Cred :=
                           Some {| syscall.Uid := uid;
                                   syscall.Gid := gid;
                                   syscall.Groups := [];
                                   syscall.NoSetGroups := true |};
                         syscall.Setsid := true |} |})].
Proof.
  exact (start_calls_step (OpExec release processName args)
           (NewForkProcess stdin stdout stderr uid gid execPath) w).
Qed.

(** X11.  A sequence of [Exec] calls with [release] unset invokes no
    release at all: each call replaces the record the launcher tracked,
    and the replaced record is not released. *)
Theorem tracking_Execs_never_release (w : W) (ops : list Op)
    (f : ForkProcess) :
  forallb tracking_exec ops = true ->
  release_calls (trace (run sys (steps ops f) w)) = [].
Proof.
  revert f w; induction ops as [ | op ops IH]; intros f w Hops.
  - reflexivity.
  - cbn [forallb] in Hops. apply andb_prop in Hops as [Hop Hops].
    rewrite run_steps_cons. cbn [trace].
    rewrite release_calls_app, (IH _ _ Hops), app_nil_r.
    destruct op as [[ | ] processName args | ]; try discriminate Hop.
    cbn [step].
    destruct (Exec_run sys false processName args f w) as
      [env w0 err w1 _ _ | env w0 p w1 _ _ _
       | env w0 p w1 rerr w2 Hrel _ _ _];
      [ reflexivity | reflexivity | discriminate Hrel ].
Qed.

Lemma steps_same_configuration ops f w :
  configuration (snd (value (run sys (steps ops f) w))) = configuration f.
Proof.
  revert f w; induction ops as [ | op ops IH]; intros f w.
  - reflexivity.
  - rewrite run_steps_cons. cbn [value snd].
    rewrite IH. apply step_same_configuration.
Qed.

(** X12.  The last [Exec] call of a sequence decides what the launcher
    tracks.  Take any calls [ops], then an [Exec] call, then any number of
    [Release] calls.  Let [r] be the answer of the operating system to the
    spawn of that [Exec] call, asked in the state [ops] left and after the
    environment was read.  The [process] field at the end holds the record
    of [r] when the spawn succeeded and [release] was unset; it is nil
    when the spawn failed and when [release] was set. *)
Theorem last_Exec_decides_process (w : W) (ops : list Op) (release : bool)
    (processName : string) (args : list string) (n : nat) (f : ForkProcess) :
  let o1 := run sys (steps ops f) w in
  let env := fst (sys Environ (world o1)) in
  let w0 := snd (sys Environ (world o1)) in
  let r := fst (sys (StartProcess processName args (spawn_attr f env)) w0) in
  process
    (snd (value
            (run sys
               (steps (ops ++ OpExec release processName args
                           :: repeat OpRelease n) f) w))) =
  match r with
  | os.Started p => if release then None else Some p
  | os.Failed _ => None
  end.
Proof.
  cbn zeta. rewrite run_steps_app. cbn zeta; cbn [value snd].
  rewrite run_steps_cons. cbn zeta; cbn [value snd].
  rewrite Releases_same_launcher. cbn [step].
  rewrite <- (spawn_attr_configuration _ (steps_same_configuration ops f w)).
  destruct (Exec_run sys release processName args
              (snd (value (run sys (steps ops f) w)))
              (world (run sys (steps ops f) w))) as
    [env w0 err w1 Henv Hstart | env w0 p w1 Hrel Henv Hstart
     | env w0 p w1 rerr w2 Hrel Henv Hstart _];
    rewrite Henv; cbn [fst snd]; rewrite Hstart; cbn; subst;
    reflexivity.
Qed.

End Calls.

(** ** The further properties on the small system *)

(** Two launchers of the same configuration, one tracking record 7. *)
Lemma Exec_reads_configuration_only_witness :
  configuration Sim.tracking = configuration Sim.fork /\
  run Sim.sys (Exec false Sim.sleep Sim.sleep60 Sim.tracking) Sim.boot =
  run Sim.sys (Exec false Sim.sleep Sim.sleep60 Sim.fork) Sim.boot.
Proof.
  split; [ reflexivity | ].
  apply (@Exec_reads_configuration_only _ Sim.sys Sim.boot false Sim.sleep
           Sim.sleep60 Sim.tracking Sim.fork).
  reflexivity.
Defined.

(** A detaching [Exec] on the launcher that tracks record 7 releases
    record 1, the one it spawned. *)
Lemma Exec_releases_only_its_spawn_witness :
  In 1 (release_calls
          (trace (run Sim.sys (Exec true Sim.sleep Sim.sleep60 Sim.tracking)
                    Sim.boot))) /\
  true = true /\
  exists attr,
    In (EvStart Sim.sleep Sim.sleep60 attr (os.Started 1))
       (trace (run Sim.sys (Exec true Sim.sleep Sim.sleep60 Sim.tracking)
                 Sim.boot)).
Proof.
  split; [ vm_compute; left; reflexivity | ].
  apply (Exec_releases_only_its_spawn Sim.sys Sim.boot true Sim.sleep
           Sim.sleep60 Sim.tracking 1).
  vm_compute; left; reflexivity.
Defined.

(** The second spawn of the session uses the attributes of the launcher
    the session started from. *)
Lemma steps_spawn_with_configuration_witness :
  In (Sim.sleep, Sim.sleep60, Sim.attr)
     (start_calls (trace (run Sim.sys (steps Sim.session Sim.fork) Sim.boot))) /\
  os.Dir Sim.attr = execPath Sim.fork /\
  os.Files Sim.attr = [stdin Sim.fork; stdout Sim.fork; stderr Sim.fork] /\
  os.Sys Sim.attr =
    Some {| syscall.Cred :=
              Some {| syscall.Uid := uid Sim.fork;
                      syscall.Gid := gid Sim.fork;
                      syscall.Groups := [];
                      syscall.NoSetGroups := true |};
            syscall.Setsid := true |}.
Proof.
  split; [ vm_compute; right; left; reflexivity | ].
  apply (steps_spawn_with_configuration Sim.sys Sim.boot Sim.session Sim.fork
           Sim.sleep Sim.sleep60 Sim.attr).
  vm_compute; right; left; reflexivity.
Defined.

(** Three [Release] calls on the launcher that tracks record 7. *)
Lemma Releases_release_each_time_witness :
  process Sim.tracking = Some 7 /\
  release_calls
    (trace (run Sim.sys (steps (repeat OpRelease 3) Sim.tracking) Sim.boot)) =
    repeat 7 3 /\
  List.length (trace (run Sim.sys (steps (repeat OpRelease 3) Sim.tracking)
                   Sim.boot)) = 3.
Proof.
  split; [ reflexivity | ].
  apply (@Releases_release_each_time _ Sim.sys Sim.boot 3 Sim.tracking 7).
  reflexivity.
Defined.

(** Two tracking [Exec] calls in a row: record 1 is replaced by record 2
    and nothing is released. *)
Lemma tracking_Execs_never_release_witness :
  forallb tracking_exec
    [OpExec false Sim.sleep Sim.sleep60; OpExec false Sim.sleep Sim.sleep60]
    = true /\
  release_calls
    (trace (run Sim.sys
              (steps [OpExec false Sim.sleep Sim.sleep60;
                      OpExec false Sim.sleep Sim.sleep60] Sim.fork)
              Sim.boot)) = [].
Proof.
  split; [ reflexivity | ].
  apply (@tracking_Execs_never_release _ Sim.sys Sim.boot
           [OpExec false Sim.sleep Sim.sleep60;
            OpExec false Sim.sleep Sim.sleep60] Sim.fork).
  reflexivity.
Defined.

(** A tracking [Exec] followed by an [Exec] whose spawn fails. *)
Lemma Exec_sequence_follows_lifecycle_witness :
  Forall (fun op => op <> OpRelease)
    [OpExec false Sim.sleep Sim.sleep60; OpExec true Sim.missing [Sim.missing]] /\
  process
    (snd (value (run Sim.sys
                   (steps [OpExec false Sim.sleep Sim.sleep60;
                           OpExec true Sim.missing [Sim.missing]] Sim.fork)
                   Sim.boot))) =
  spec_liveProcess (process Sim.fork)
    (trace (run Sim.sys
              (steps [OpExec false Sim.sleep Sim.sleep60;
                      OpExec true Sim.missing [Sim.missing]] Sim.fork)
              Sim.boot)).
Proof.
  assert (Hops : Forall (fun op => op <> OpRelease)
            [OpExec false Sim.sleep Sim.sleep60;
             OpExec true Sim.missing [Sim.missing]])
    by (repeat constructor; discriminate).
  split; [ exact Hops | ].
  apply (@Exec_sequence_follows_lifecycle _ Sim.sys _ Hops Sim.fork Sim.boot).
Defined.

(** C8, as the claim words it, fails: the child [Exec] spawns for a caller
    that is member of the groups 4 and 27 is itself member of these
    groups; its supplementary groups are inherited, not cleared. *)
Lemma Exec_child_inherits_groups :
  start_calls
    (trace (run Sim.sys (Exec true Sim.sleep Sim.sleep60 Sim.fork) Sim.boot))
    = [(Sim.sleep, Sim.sleep60, Sim.attr)] /\
  syscall.child_identity Sim.caller (credential_of Sim.attr) =
    {| syscall.id_uid := 1000%N;
       syscall.id_gid := 1000%N;
       syscall.id_groups := [4%N; 27%N] |} /\
  syscall.id_groups
    (syscall.child_identity Sim.caller (credential_of Sim.attr)) <> [].
Proof.
  repeat split. discriminate.
Qed.

(** The session ends with a detaching [Exec]: nothing is tracked; cut
    before it, the session ends with a tracking [Exec] and a [Release]:
    record 1 is tracked. *)
Example session_last_Exec :
  process (snd (value (run Sim.sys (steps Sim.session Sim.fork) Sim.boot)))
    = None /\
  process
    (snd (value (run Sim.sys
                   (steps [OpExec false Sim.sleep Sim.sleep60; OpRelease]
                      Sim.fork) Sim.boot))) = Some 1.
Proof. split; reflexivity. Qed.
